(** * rustdoc implementors script for [core::ops::InPlace]

    The file [implementors/core/ops/trait.InPlace.js] is an immediately
    invoked function expression.  It builds an object [implementors] by ten
    indexed assignments of array literals, then either calls
    [window.register_implementors] with it or stores it in
    [window.pending_implementors].

    The script is embedded as a computation in a small state-and-exception
    monad over a model of the fragment of JavaScript it uses:

    - values are the ECMAScript language values; objects live in a heap and
      are denoted by references, so that the object handed to the page is
      the very object the script built;
    - [window] is the global object; its properties are ordinary writable
      data properties (no accessor, no proxy, nothing frozen), kept in a
      finite map from names to values, and [Object.prototype] has no setter
      for the keys of the table;
    - a function object of the page is external code: what a call does is
      given by a host function, which may change the whole world, raise, or
      never return;
    - every action of the script that the page can observe (a call, a write
      to a global) is appended to a trace, which no host code can touch. *)

From Stdlib Require Import ZArith Floats.SpecFloat.
From stdpp Require Import gmap strings list fin_maps.

Open Scope string_scope.
Open Scope list_scope.

(** ** Values and objects *)

(** An object reference: the global object or a heap cell. *)
Inductive ref :=
| Window
| Loc (l : nat).

(** ECMAScript language values.  Numbers are IEEE 754 binary64 data. *)
Inductive value :=
| VUndefined
| VNull
| VBool (b : bool)
| VNumber (x : spec_float)
| VBigInt (n : Z)
| VString (s : string)
| VSymbol (id : nat)
| VObject (r : ref).

(** What a heap cell is: an ordinary object, an array exotic object with its
    indexed elements, or a function object (callable). *)
Inductive kind :=
| KOrdinary
| KArray (elems : list value)
| KFunction.

(** A heap object: its kind and its own string-keyed data properties in
    insertion order, the order in which JavaScript enumerates them. *)
Record object := Object { okind : kind; props : list (string * value) }.

(** The part of the browser the script can read or write, and that page code
    can change: the properties of [window], the object heap and the rest of
    the page's state (document, timers, ...), of an arbitrary type [page]. *)
Record world (page : Type) := World {
  globals : gmap string value;
  heap : list object;
  rest : page
}.
Arguments World {page} _ _ _.
Arguments globals {page} _.
Arguments heap {page} _.
Arguments rest {page} _.

(** ToBoolean (ECMA-262 7.1.2). *)
Definition to_boolean (v : value) : bool :=
  match v with
  | VUndefined | VNull => false
  | VBool b => b
  | VNumber S754_nan | VNumber (S754_zero _) => false
  | VNumber _ => true
  | VBigInt n => negb (n =? 0)%Z
  | VString s => negb (String.eqb s "")
  | VSymbol _ => true
  | VObject _ => true
  end.

(** IsCallable (ECMA-262 7.2.3): a reference to a function object. *)
Definition is_callable {page} (w : world page) (v : value) : bool :=
  match v with
  | VObject (Loc l) =>
      match heap w !! l with
      | Some (Object KFunction _) => true
      | _ => false
      end
  | _ => false
  end.

(** [o[k] = v] on an object's own properties: an existing key keeps its
    position and takes the new value, a new key is appended. *)
Fixpoint define_own (k : string) (v : value) (ps : list (string * value))
  : list (string * value) :=
  match ps with
  | [] => [(k, v)]
  | (k', v') :: ps' =>
      if String.eqb k' k then (k', v) :: ps' else (k', v') :: define_own k v ps'
  end.

Definition with_own (k : string) (v : value) (o : object) : object :=
  Object (okind o) (define_own k v (props o)).

(** Reading a property of [window]: a missing property reads [undefined]. *)
Definition window_get {page} (w : world page) (name : string) : value :=
  default VUndefined (globals w !! name).

(** ** The literals of the table *)

(** The three HTML fragments of the table.  The source spells each of them
    out in full in every one of its ten array literals. *)
Definition html_IntermediateBox : string :=
  "impl&lt;T&gt; <a class='trait' href='https://doc.rust-lang.org/nightly/core/ops/trait.InPlace.html' title='core::ops::InPlace'>InPlace</a>&lt;T&gt; for <a class='struct' href='https://doc.rust-lang.org/nightly/alloc/boxed/struct.IntermediateBox.html' title='alloc::boxed::IntermediateBox'>IntermediateBox</a>&lt;T&gt;".
Definition html_FrontPlace : string :=
  "impl&lt;'a, T&gt; <a class='trait' href='https://doc.rust-lang.org/nightly/core/ops/trait.InPlace.html' title='core::ops::InPlace'>InPlace</a>&lt;T&gt; for <a class='struct' href='https://doc.rust-lang.org/nightly/collections/linked_list/struct.FrontPlace.html' title='collections::linked_list::FrontPlace'>FrontPlace</a>&lt;'a, T&gt;".
Definition html_BackPlace : string :=
  "impl&lt;'a, T&gt; <a class='trait' href='https://doc.rust-lang.org/nightly/core/ops/trait.InPlace.html' title='core::ops::InPlace'>InPlace</a>&lt;T&gt; for <a class='struct' href='https://doc.rust-lang.org/nightly/collections/linked_list/struct.BackPlace.html' title='collections::linked_list::BackPlace'>BackPlace</a>&lt;'a, T&gt;".

(** ** Effects *)

(** What the script raises: its own [TypeError] (calling a value that is not
    callable) or whatever a callee threw. *)
Inductive exn :=
| TypeError
| Raised (v : value).

Section Script.

Context {page : Type}.

(** How a call of external code ends. *)
Inductive reply :=
| Returns (v : value) (w : world page)
| Throws (v : value) (w : world page)
| Diverges.

(** The page's code: [host l this args w] is the call of the function object
    at heap cell [l] with the given [this] and arguments in world [w]. *)
Variable host : nat -> value -> list value -> world page -> reply.

(** The script's observable actions.  A call records the world the callee
    was entered with. *)
Inductive event :=
| Call (callee this : value) (args : list value) (entry : world page)
| SetGlobal (name : string) (v : value).

Record config := Config { cw : world page; clog : list event }.

(** A computation ends normally, by a throw, or not at all (the callee never
    returned; the events so far are kept). *)
Inductive result (A : Type) :=
| Done (a : A) (c : config)
| Thrown (e : exn) (c : config)
| Hang (log : list event).
Arguments Done {A} _ _.
Arguments Thrown {A} _ _.
Arguments Hang {A} _.

Definition M (A : Type) : Type := config -> result A.

Definition ret {A} (a : A) : M A := fun c => Done a c.

Definition bind {A B} (m : M A) (k : A -> M B) : M B :=
  fun c =>
    match m c with
    | Done a c' => k a c'
    | Thrown e c' => Thrown e c'
    | Hang l => Hang l
    end.

#[global] Instance M_ret : MRet M := @ret.
#[global] Instance M_bind : MBind M := fun A B k m => bind m k.

Definition throw {A} (e : exn) : M A := fun c => Thrown e c.

(** [window.name] as an expression. *)
Definition get_global (name : string) : M value :=
  fun c => Done (window_get (cw c) name) c.

(** [window.name = v]. *)
Definition set_global (name : string) (v : value) : M unit :=
  fun c =>
    let w := cw c in
    Done tt (Config (World (<[name := v]> (globals w)) (heap w) (rest w))
                    (clog c ++ [SetGlobal name v])).

(** Allocation of a new heap object; the reference to it is the result. *)
Definition alloc (o : object) : M value :=
  fun c =>
    let w := cw c in
    Done (VObject (Loc (length (heap w))))
         (Config (World (globals w) (heap w ++ [o]) (rest w)) (clog c)).

(** The object literal [{}]. *)
Definition new_object : M value := alloc (Object KOrdinary []).

(** An array literal [[e1, ..., en,]]; a trailing comma adds no element. *)
Definition new_array (elems : list value) : M value :=
  alloc (Object (KArray elems) []).

(** [target[k] = v] in sloppy mode, for a key that is not an array index:
    [undefined] and [null] have no properties (TypeError), a write to another
    primitive is dropped, a write to [window] sets a global, and a write to a
    heap object defines or updates its own property. *)
Definition put_prop (target : value) (k : string) (v : value) : M unit :=
  match target with
  | VUndefined | VNull => throw TypeError
  | VObject Window => set_global k v
  | VObject (Loc l) =>
      fun c =>
        let w := cw c in
        Done tt (Config (World (globals w) (alter (with_own k v) l (heap w)) (rest w))
                        (clog c))
  | _ => ret tt
  end.

(** [f.call(this, ...args)]: a TypeError when [f] is not callable, otherwise
    the call is made (and recorded) and ends as the callee ends. *)
Definition call (f this : value) (args : list value) : M value :=
  fun c =>
    match f with
    | VObject (Loc l) =>
        if is_callable (cw c) f then
          let log := clog c ++ [Call f this args (cw c)] in
          match host l this args (cw c) with
          | Returns v w => Done v (Config w log)
          | Throws v w => Thrown (Raised v) (Config w log)
          | Diverges => Hang log
          end
        else Thrown TypeError c
    | _ => Thrown TypeError c
    end.

(** ** The script *)

(** The statement [target[k] = [e1, ..., en,];]: the array literal is
    evaluated (allocated), then stored under [k]. *)
Definition assign_array (target : value) (k : string) (elems : list value)
  : M unit :=
  a ← new_array elems; put_prop target k a.

(** Lines 1-2: [var implementors = {};] and the ten assignments.  The
    variable is local to the function; its value is the result here. *)
Definition build : M value :=
  implementors ← new_object;
  assign_array implementors "lazy_static"
    [VString html_IntermediateBox; VString html_FrontPlace; VString html_BackPlace];;
  assign_array implementors "regex_syntax"
    [VString html_IntermediateBox; VString html_FrontPlace; VString html_BackPlace];;
  assign_array implementors "libc"
    [VString html_IntermediateBox; VString html_FrontPlace; VString html_BackPlace];;
  assign_array implementors "serde"
    [VString html_IntermediateBox; VString html_FrontPlace; VString html_BackPlace];;
  assign_array implementors "nix"
    [VString html_IntermediateBox; VString html_FrontPlace; VString html_BackPlace];;
  assign_array implementors "mio"
    [VString html_IntermediateBox; VString html_FrontPlace; VString html_BackPlace];;
  assign_array implementors "ws"
    [VString html_FrontPlace; VString html_BackPlace; VString html_IntermediateBox];;
  assign_array implementors "hyper"
    [VString html_FrontPlace; VString html_BackPlace; VString html_IntermediateBox];;
  assign_array implementors "handlebars"
    [VString html_IntermediateBox; VString html_FrontPlace; VString html_BackPlace];;
  assign_array implementors "iron"
    [VString html_FrontPlace; VString html_BackPlace; VString html_IntermediateBox];;
  mret implementors.

(** Lines 4-8: the registration glue.  [window.register_implementors] is read
    once for the test and once more for the call, whose [this] is [window]
    and whose result is dropped. *)
Definition register (implementors : value) : M unit :=
  present ← get_global "register_implementors";
  if to_boolean present then
    f ← get_global "register_implementors";
    call f (VObject Window) [implementors];;
    mret tt
  else
    set_global "pending_implementors" implementors.

(** The body of the function expression.  The expression is called at once,
    with no argument, and its result ([undefined]) is dropped; the closure is
    never seen by anyone and is not allocated here. *)
Definition body : M unit :=
  implementors ← build; register implementors.

(** Loading the script in world [w]. *)
Definition run (w : world page) : result unit := body (Config w []).

End Script.

Arguments reply : clear implicits.
Arguments event : clear implicits.
Arguments config : clear implicits.
Arguments result : clear implicits.
Arguments M : clear implicits.
Arguments Done {page A} a c.
Arguments Thrown {page A} e c.
Arguments Hang {page A} log.

(** ** Observations *)

(** The events of a run, whichever way it ended. *)
Definition trace {page A} (r : result page A) : list (event page) :=
  match r with
  | Done _ c | Thrown _ c => clog c
  | Hang l => l
  end.

(** The world a run ends in; a run that never ends has none. *)
Definition final {page A} (r : result page A) : option (world page) :=
  match r with
  | Done _ c | Thrown _ c => Some (cw c)
  | Hang _ => None
  end.

Definition is_call {page} (e : event page) : bool :=
  match e with Call _ _ _ _ => true | SetGlobal _ _ => false end.

Definition is_write {page} (name : string) (e : event page) : bool :=
  match e with Call _ _ _ _ => false | SetGlobal n _ => String.eqb n name end.

Definition count_calls {page} (l : list (event page)) : nat :=
  length (filter (fun e => is_call e = true) l).

Definition count_writes {page} (name : string) (l : list (event page)) : nat :=
  length (filter (fun e => is_write name e = true) l).

(** Reading a heap structure back as data.  [strings_at h v] is the list of
    strings held by the array [v]; [table_at w v] is the mapping held by the
    ordinary object [v], key by key in enumeration order.  Both are [None]
    when the structure is not of that form. *)
Definition as_string (v : value) : option string :=
  match v with VString s => Some s | _ => None end.

Definition strings_at (h : list object) (v : value) : option (list string) :=
  match v with
  | VObject (Loc l) =>
      match h !! l with
      | Some (Object (KArray elems) _) => mapM as_string elems
      | _ => None
      end
  | _ => None
  end.

Definition table_at {page} (w : world page) (v : value)
  : option (list (string * list string)) :=
  match v with
  | VObject (Loc l) =>
      match heap w !! l with
      | Some (Object KOrdinary ps) =>
          mapM (fun kv => pair kv.1 <$> strings_at (heap w) kv.2) ps
      | _ => None
      end
  | _ => None
  end.

(** The table as the source writes it: ten keys, three fragments each. *)
Definition implementors_table : list (string * list string) :=
  [ ("lazy_static", [html_IntermediateBox; html_FrontPlace; html_BackPlace]);
    ("regex_syntax", [html_IntermediateBox; html_FrontPlace; html_BackPlace]);
    ("libc", [html_IntermediateBox; html_FrontPlace; html_BackPlace]);
    ("serde", [html_IntermediateBox; html_FrontPlace; html_BackPlace]);
    ("nix", [html_IntermediateBox; html_FrontPlace; html_BackPlace]);
    ("mio", [html_IntermediateBox; html_FrontPlace; html_BackPlace]);
    ("ws", [html_FrontPlace; html_BackPlace; html_IntermediateBox]);
    ("hyper", [html_FrontPlace; html_BackPlace; html_IntermediateBox]);
    ("handlebars", [html_IntermediateBox; html_FrontPlace; html_BackPlace]);
    ("iron", [html_FrontPlace; html_BackPlace; html_IntermediateBox]) ].

(** The heap cells [build] adds when the heap had [n] cells: the object, with
    its ten properties pointing at the ten arrays that follow it. *)
Definition strs (l : list string) : list value := VString <$> l.

Definition built (n : nat) : list object :=
  Object KOrdinary
    (imap (fun i kv => (kv.1, VObject (Loc (n + S i)))) implementors_table)
  :: ((fun kv => Object (KArray (strs kv.2)) []) <$> implementors_table).

(** The world after lines 1-2. *)
Definition after_build {page} (w : world page) : world page :=
  World (globals w) (heap w ++ built (length (heap w))) (rest w).

(** The pieces of a run, named: the value of [window.register_implementors]
    at the start, the reference the script creates for its table, the one
    call it may make, and the world after the store to
    [window.pending_implementors]. *)
Definition callback {page} (w : world page) : value :=
  window_get w "register_implementors".

Definition table_ref {page} (w : world page) : value :=
  VObject (Loc (length (heap w))).

Definition the_call {page} (w : world page) : event page :=
  Call (callback w) (VObject Window) [table_ref w] (after_build w).

Definition stashed {page} (w : world page) : world page :=
  World (<["pending_implementors" := table_ref w]> (globals w))
        (heap (after_build w)) (rest w).

Definition the_write {page} (w : world page) : event page :=
  SetGlobal "pending_implementors" (table_ref w).

(** ** Properties of a run *)

(** The external contract of the page: [window.register_implementors], when
    present (truthy), is a callable function. *)
Definition contract {page} (w : world page) : bool :=
  implb (to_boolean (callback w)) (is_callable w (callback w)).

(** What a run hands over, with the world in which it is handed over: the
    argument of the call at the callee's entry, or the value stored in the
    global in the final world. *)
Definition delivered {page A} (r : result page A) : option (value * world page) :=
  match trace r with
  | [Call _ _ [arg] entry] => Some (arg, entry)
  | [SetGlobal _ v] => pair v <$> final r
  | _ => None
  end.

(** Exactly one of the two effects of the glue is in a trace. *)
Definition exactly_one_branch {page} (l : list (event page)) : Prop :=
  (count_calls l = 1 /\ count_writes "pending_implementors" l = 0)
  \/ (count_calls l = 0 /\ count_writes "pending_implementors" l = 1).

(** The values an object holds: those of its properties and its elements. *)
Definition held_by (o : object) : list value :=
  (props o).*2 ++ match okind o with KArray elems => elems | _ => [] end.

(** A world without dangling references: every heap reference held by a
    global or by a heap object points into the heap. *)
Definition closed {page} (w : world page) : Prop :=
  forall l,
    (exists name, globals w !! name = Some (VObject (Loc l)))
    \/ (exists o, o ∈ heap w /\ VObject (Loc l) ∈ held_by o) ->
    l < length (heap w).

(** [mentions needle s]: [needle] occurs in [s]. *)
Definition mentions (needle s : string) : bool :=
  match String.index 0 needle s with Some _ => true | None => false end.

Section Statements.

Context {page : Type}.
Variable host : nat -> value -> list value -> world page -> reply page.
Implicit Types w : world page.

(** The callback was called exactly once, with the table as its only
    argument, and the script wrote no [pending_implementors]. *)
Definition registered_once w : Prop :=
  exists arg entry,
    trace (run host w) = [Call (callback w) (VObject Window) [arg] entry]
    /\ table_at entry arg = Some implementors_table
    /\ count_writes "pending_implementors" (trace (run host w)) = 0.

(** The script ended normally having stored the table in
    [window.pending_implementors] (and done nothing else). *)
Definition left_pending w : Prop :=
  exists arg w',
    run host w = Done tt (Config w' [SetGlobal "pending_implementors" arg])
    /\ globals w' !! "pending_implementors" = Some arg
    /\ table_at w' arg = Some implementors_table.

(** "If [window.register_implementors] is truthy the callback is invoked
    exactly once with the table; if it is falsy the table is stored." *)
Definition registers_when_truthy w : Prop :=
  (to_boolean (callback w) = true -> registered_once w)
  /\ (to_boolean (callback w) = false -> left_pending w).

(** "In every environment either the callback is invoked or the global is
    written, never both and never neither." *)
Definition one_branch_always w : Prop :=
  exactly_one_branch (trace (run host w)).

(** "Under the contract, execution completes without raising." *)
Definition never_raises w : Prop :=
  contract w = true -> exists c, run host w = Done tt c.

(** "Every global other than [pending_implementors] has the same value after
    execution as before." *)
Definition only_pending_changes w : Prop :=
  forall w' name,
    final (run host w) = Some w' ->
    name <> "pending_implementors" ->
    globals w' !! name = globals w !! name.

(** "Execution terminates." *)
Definition terminates w : Prop :=
  exists w', final (run host w) = Some w'.

(** "After execution the global [implementors] is as it was before." *)
Definition implementors_stays_local w : Prop :=
  forall w',
    final (run host w) = Some w' ->
    globals w' !! "implementors" = globals w !! "implementors".

End Statements.

(** ** Sample pages

    Concrete initial worlds (with no further page state) and page code, used
    to run the script on. *)

(** A page that has not loaded its own script yet: no global at all. *)
Definition w_bare : world unit := World ∅ [] tt.

(** A page whose [register_implementors] is the function object in heap
    cell 0. *)
Definition w_page : world unit :=
  World {[ "register_implementors" := VObject (Loc 0) ]} [Object KFunction []] tt.

(** A page where [register_implementors] is the flag [true], which is
    truthy and not a function. *)
Definition w_flag : world unit :=
  World {[ "register_implementors" := VBool true ]} [] tt.

(** [function (imp) { }]: does nothing. *)
Definition host_idle (l : nat) (this : value) (args : list value)
  (w : world unit) : reply unit :=
  Returns VUndefined w.

(** [function (imp) { throw "no list on this page"; }] *)
Definition host_throwing (l : nat) (this : value) (args : list value)
  (w : world unit) : reply unit :=
  Throws (VString "no list on this page") w.

(** [function (imp) { while (true) { } }] *)
Definition host_looping (l : nat) (this : value) (args : list value)
  (w : world unit) : reply unit :=
  Diverges.

(** [function (imp) { window.registered = true; }] *)
Definition host_marking (l : nat) (this : value) (args : list value)
  (w : world unit) : reply unit :=
  Returns VUndefined
    (World (<["registered" := VBool true]> (globals w)) (heap w) (rest w)).

(** [function (imp) { window.implementors = imp; }] *)
Definition host_keeping (l : nat) (this : value) (args : list value)
  (w : world unit) : reply unit :=
  Returns VUndefined
    (World (<["implementors" := default VUndefined (args !! 0)]> (globals w))
           (heap w) (rest w)).

(** ** The page around the script *)

(** The world after the page has run [window.name = v]. *)
Definition set_var {page} (name : string) (v : value) (w : world page)
  : world page :=
  World (<[name := v]> (globals w)) (heap w) (rest w).

(** A reply with the returned value replaced by [undefined]. *)
Definition forget_value {page} (r : reply page) : reply page :=
  match r with
  | Returns _ w => Returns VUndefined w
  | Throws v w => Throws v w
  | Diverges => Diverges
  end.

(** [w'] has every heap object of [w] where it was and [n] new ones after
    them, and the same page state outside globals and heap. *)
Definition grows_by {page} (n : nat) (w w' : world page) : Prop :=
  (forall l o, heap w !! l = Some o -> heap w' !! l = Some o)
  /\ length (heap w') = length (heap w) + n
  /\ rest w' = rest w.

(** ** The build phase *)

Section Build.

Context {page : Type}.
Implicit Types (w : world page) (c : config page) (h : list object).

Lemma bind_done {A B} (m : M page A) (k : A -> M page B) c a c' :
  m c = Done a c' -> (m ≫= k) c = k a c'.
Proof. intros E. unfold mbind, M_bind, bind. by rewrite E. Qed.

Lemma lookup_past h (l : list object) i : (h ++ l) !! (length h + i) = l !! i.
Proof. rewrite lookup_app_r by lia. f_equal. lia. Qed.

Lemma assign_array_at h o arrs g (r : page) log k elems :
  assign_array (VObject (Loc (length h))) k elems
    (Config (World g (h ++ o :: arrs) r) log)
  = Done tt (Config (World g (h ++ with_own k (VObject (Loc (length h + S (length arrs)))) o
                                 :: arrs ++ [Object (KArray elems) []]) r) log).
Proof.
  unfold assign_array, new_array, alloc, put_prop, mbind, M_bind, bind. simpl.
  do 3 f_equal.
  rewrite length_app. simpl.
  rewrite <- (app_assoc h (o :: arrs)). simpl.
  replace (length h) with (length h + 0) at 2 by lia.
  by rewrite alter_app_r.
Qed.

Lemma build_spec c :
  build c = Done (VObject (Loc (length (heap (cw c)))))
                 (Config (after_build (cw c)) (clog c)).
Proof.
  destruct c as [[g h r] log]. unfold build, after_build. simpl.
  unfold new_object, alloc.
  erewrite bind_done; [|reflexivity]. simpl.
  do 10 (erewrite bind_done; [|apply assign_array_at]; simpl).
  reflexivity.
Qed.

End Build.

Section Glue.

Context {page : Type}.
Variable host : nat -> value -> list value -> world page -> reply page.
Implicit Types (w : world page) (h : list object).

Lemma table_at_built g h (r : page) :
  table_at (World g (h ++ built (length h)) r) (VObject (Loc (length h)))
  = Some implementors_table.
Proof.
  unfold table_at. simpl heap.
  replace (length h) with (length h + 0) at 1 by lia.
  rewrite lookup_past. simpl.
  unfold strings_at. rewrite !lookup_past. reflexivity.
Qed.

Lemma is_callable_after_build w v :
  is_callable (after_build w) v = is_callable w v.
Proof.
  destruct v as [| | | | | | |[|l]]; try reflexivity.
  unfold is_callable, after_build. simpl heap.
  destruct (decide (l < length (heap w))) as [Hl|Hl].
  - by rewrite lookup_app_l.
  - rewrite (lookup_ge_None_2 (heap w)) by lia.
    rewrite lookup_app_r by lia.
    remember (l - length (heap w)) as i. clear.
    do 11 (destruct i as [|i]; [reflexivity|]). reflexivity.
Qed.

Lemma table_at_after_build w :
  table_at (after_build w) (table_ref w) = Some implementors_table.
Proof. apply table_at_built. Qed.

Lemma table_at_stashed w :
  table_at (stashed w) (table_ref w) = Some implementors_table.
Proof. apply table_at_built. Qed.

Lemma callable_is_truthy w v : is_callable w v = true -> to_boolean v = true.
Proof. by destruct v. Qed.

Lemma callable_is_loc w v :
  is_callable w v = true -> exists l, v = VObject (Loc l).
Proof. destruct v as [| | | | | | |[|l]]; try discriminate. eauto. Qed.

(** The three ways the script runs. *)
Lemma run_absent w :
  to_boolean (callback w) = false ->
  run host w = Done tt (Config (stashed w) [the_write w]).
Proof.
  intros F. unfold run, body.
  erewrite bind_done; [|apply build_spec]. simpl.
  unfold register, get_global.
  erewrite bind_done; [|reflexivity]. simpl.
  change (window_get (after_build w) "register_implementors") with (callback w).
  by rewrite F.
Qed.

Lemma run_not_callable w :
  to_boolean (callback w) = true ->
  is_callable w (callback w) = false ->
  run host w = Thrown TypeError (Config (after_build w) []).
Proof.
  intros T F. unfold run, body.
  erewrite bind_done; [|apply build_spec]. simpl.
  unfold register, get_global.
  erewrite bind_done; [|reflexivity]. simpl.
  change (window_get (after_build w) "register_implementors") with (callback w).
  rewrite T.
  erewrite bind_done; [|reflexivity]. simpl.
  change (window_get (after_build w) "register_implementors") with (callback w).
  unfold mbind, M_bind, bind, call. simpl cw.
  rewrite is_callable_after_build, F.
  by destruct (callback w) as [| | | | | | |[|l]].
Qed.

Lemma run_callable w l :
  callback w = VObject (Loc l) ->
  is_callable w (callback w) = true ->
  run host w =
    match host l (VObject Window) [table_ref w] (after_build w) with
    | Returns _ w' => Done tt (Config w' [the_call w])
    | Throws v w' => Thrown (Raised v) (Config w' [the_call w])
    | Diverges => Hang [the_call w]
    end.
Proof.
  intros E T. unfold run, body.
  erewrite bind_done; [|apply build_spec]. simpl.
  unfold register, get_global.
  erewrite bind_done; [|reflexivity]. simpl.
  change (window_get (after_build w) "register_implementors") with (callback w).
  rewrite (callable_is_truthy _ _ T).
  erewrite bind_done; [|reflexivity]. simpl.
  change (window_get (after_build w) "register_implementors") with (callback w).
  unfold the_call. rewrite E in T |- *.
  unfold mbind, M_bind, bind, call. simpl cw. simpl clog.
  rewrite is_callable_after_build, T.
  by destruct (host l _ _ _).
Qed.

End Glue.

(** ** The claims *)

Section Claims.

Context {page : Type}.
Variable host : nat -> value -> list value -> world page -> reply page.
Implicit Types w : world page.

(** Every run is one of three: the store, the failed call, the call. *)
Lemma run_cases w :
  (to_boolean (callback w) = false
   /\ run host w = Done tt (Config (stashed w) [the_write w]))
  \/ (to_boolean (callback w) = true
      /\ is_callable w (callback w) = false
      /\ run host w = Thrown TypeError (Config (after_build w) []))
  \/ (exists l,
        callback w = VObject (Loc l)
        /\ to_boolean (callback w) = true
        /\ is_callable w (callback w) = true
        /\ run host w =
             match host l (VObject Window) [table_ref w] (after_build w) with
             | Returns _ w' => Done tt (Config w' [the_call w])
             | Throws v w' => Thrown (Raised v) (Config w' [the_call w])
             | Diverges => Hang [the_call w]
             end).
Proof.
  destruct (to_boolean (callback w)) eqn:T.
  - destruct (is_callable w (callback w)) eqn:C.
    + right; right. destruct (callable_is_loc _ _ C) as [l E].
      exists l. split_and!; try done. by apply run_callable.
    + right; left. split_and!; try done. by apply run_not_callable.
  - left. split; [done|]. by apply run_absent.
Qed.

Lemma trace_of_call w l :
  trace (match host l (VObject Window) [table_ref w] (after_build w) with
         | Returns _ w' => Done tt (Config w' [the_call w])
         | Throws v w' => Thrown (Raised v) (Config w' [the_call w])
         | Diverges => Hang [the_call w]
         end) = [the_call w].
Proof. by destruct (host l _ _ _). Qed.

Lemma final_of_call w l :
  final (match host l (VObject Window) [table_ref w] (after_build w) with
         | Returns _ w' => Done tt (Config w' [the_call w])
         | Throws v w' => Thrown (Raised v) (Config w' [the_call w])
         | Diverges => Hang (A := unit) [the_call w]
         end)
  = match host l (VObject Window) [table_ref w] (after_build w) with
    | Returns _ w' | Throws _ w' => Some w'
    | Diverges => None
    end.
Proof. by destruct (host l _ _ _). Qed.

(** The trace of a run: one call, one write, or nothing. *)
Lemma trace_cases w :
  trace (run host w) =
    if to_boolean (callback w) then
      if is_callable w (callback w) then [the_call w] else []
    else [the_write w].
Proof.
  destruct (run_cases w) as [(F & R)|[(T & N & R)|(l & E & T & C & R)]];
    rewrite R; [by rewrite F | by rewrite T, N |].
  rewrite T, C. apply trace_of_call.
Qed.

(** C1 (amended): for every initial environment, if
    [window.register_implementors] is truthy and callable, the script invokes
    it exactly once with the implementors mapping as its sole argument and
    writes no [window.pending_implementors]; if it is truthy and not
    callable, the call raises a TypeError and nothing is invoked or written;
    if it is falsy, the script assigns the mapping to
    [window.pending_implementors], where the page finds it afterwards. *)
Theorem register_or_stash w :
  if to_boolean (callback w) then
    if is_callable w (callback w) then registered_once host w
    else run host w = Thrown TypeError (Config (after_build w) [])
  else left_pending host w.
Proof.
  destruct (run_cases w) as [(F & R)|[(T & N & R)|(l & E & T & C & R)]].
  - rewrite F. exists (table_ref w), (stashed w). split_and!.
    + exact R.
    + apply lookup_insert_eq.
    + apply table_at_stashed.
  - by rewrite T, N.
  - rewrite T, C. exists (table_ref w), (after_build w).
    rewrite R, trace_of_call. split_and!.
    + reflexivity.
    + apply table_at_after_build.
    + reflexivity.
Qed.

(** C2 (amended): for every initial environment in which
    [window.register_implementors] is falsy or a callable function, exactly
    one of the two effects of the glue takes place: either the callback is
    invoked or [window.pending_implementors] is written, never both and
    never neither. *)
Theorem one_branch_under_contract w :
  contract w = true -> one_branch_always host w.
Proof.
  unfold contract, one_branch_always. intros K. rewrite trace_cases.
  destruct (to_boolean (callback w)); simpl in K.
  - rewrite K. by left.
  - by right.
Qed.

(** C3 (amended): for every initial environment satisfying the contract, the
    script raises no error of its own.  With the registration global absent
    it completes normally; with it present the run ends as the invocation of
    the callback ends: normally when the callback returns, and with the
    callback's own exception when the callback throws. *)
Theorem raises_only_what_callback_throws w :
  contract w = true ->
  (to_boolean (callback w) = false -> exists c, run host w = Done tt c)
  /\ (forall l, callback w = VObject (Loc l) ->
        match host l (VObject Window) [table_ref w] (after_build w) with
        | Returns _ w' => run host w = Done tt (Config w' [the_call w])
        | Throws v w' => run host w = Thrown (Raised v) (Config w' [the_call w])
        | Diverges => run host w = Hang [the_call w]
        end)
  /\ (forall c, run host w <> Thrown TypeError c).
Proof.
  unfold contract. intros K.
  destruct (run_cases w) as [(F & R)|[(T & N & R)|(l & E & T & C & R)]].
  - split_and!.
    + eauto.
    + intros l E. rewrite E in F. discriminate F.
    + rewrite R. intros c Hc. discriminate Hc.
  - rewrite T, N in K. discriminate K.
  - split_and!.
    + intros F. rewrite F in T. discriminate T.
    + intros l' E'. rewrite E in E'. injection E' as <-.
      rewrite R. by destruct (host l _ _ _).
    + rewrite R. intros c Hc. destruct (host l _ _ _); discriminate Hc.
Qed.

End Claims.

(** C1 fails as stated: with [window.register_implementors = true] the test
    succeeds and the call raises a TypeError; no callback is invoked. *)
Lemma truthy_flag_is_not_invoked : ~ registers_when_truthy host_idle w_flag.
Proof.
  intros [H _]. destruct (H eq_refl) as (arg & entry & Htr & _).
  vm_compute in Htr. discriminate.
Qed.

(** C2 fails as stated: on the same page neither effect takes place. *)
Lemma truthy_flag_takes_neither_branch : ~ one_branch_always host_idle w_flag.
Proof.
  unfold one_branch_always, exactly_one_branch.
  vm_compute. intros [[H _]|[_ H]]; discriminate.
Qed.

Lemma one_branch_under_contract_holds :
  contract w_page = true /\ one_branch_always host_throwing w_page.
Proof.
  split; [reflexivity | apply (one_branch_under_contract host_throwing w_page); reflexivity].
Defined.

(** C3 fails as stated: a callable callback that throws makes the script
    end with that exception. *)
Lemma throwing_callback_raises : ~ never_raises host_throwing w_page.
Proof.
  intros H. destruct (H eq_refl) as [c Hc]. vm_compute in Hc. discriminate.
Qed.

Lemma raises_only_what_callback_throws_holds :
  contract w_page = true
  /\ run host_throwing w_page
     = Thrown (Raised (VString "no list on this page"))
              (Config (after_build w_page) [the_call w_page]).
Proof.
  split; [reflexivity|].
  destruct (raises_only_what_callback_throws host_throwing w_page eq_refl)
    as (_ & H & _).
  exact (H 0 eq_refl).
Defined.

(** ** What the script changes *)

Section Frame.

Context {page : Type}.
Variable host : nat -> value -> list value -> world page -> reply page.
Implicit Types w : world page.

(** An event of a run is the one call or the one write. *)
Lemma event_cases w e :
  e ∈ trace (run host w) ->
  (e = the_call w /\ is_callable w (callback w) = true)
  \/ (e = the_write w /\ to_boolean (callback w) = false).
Proof.
  rewrite trace_cases.
  destruct (to_boolean (callback w)).
  - destruct (is_callable w (callback w)).
    + intros ->%list_elem_of_singleton. by left.
    + intros []%elem_of_nil.
  - intros ->%list_elem_of_singleton. by right.
Qed.

Lemma final_cases w :
  final (run host w) =
    if to_boolean (callback w) then
      match callback w with
      | VObject (Loc l) =>
          if is_callable w (callback w) then
            match host l (VObject Window) [table_ref w] (after_build w) with
            | Returns _ w' | Throws _ w' => Some w'
            | Diverges => None
            end
          else Some (after_build w)
      | _ => Some (after_build w)
      end
    else Some (stashed w).
Proof.
  destruct (run_cases host w) as [(F & R)|[(T & N & R)|(l & E & T & C & R)]];
    rewrite R.
  - by rewrite F.
  - rewrite T, N. by destruct (callback w) as [| | | | | | |[|l]].
  - rewrite T, C, E. apply final_of_call.
Qed.

(** C4 (amended): the script itself writes no global other than
    [window.pending_implementors].  When [window.register_implementors] is
    falsy, every other global binding has the same value after execution as
    before.  When the callback is invoked, it is entered with the global
    bindings of the initial environment, and the final state is exactly the
    one the callback leaves. *)
Theorem writes_only_pending w :
  (forall name v,
      SetGlobal name v ∈ trace (run host w) -> name = "pending_implementors")
  /\ (to_boolean (callback w) = false ->
      exists w',
        final (run host w) = Some w'
        /\ forall name, name <> "pending_implementors" ->
                        globals w' !! name = globals w !! name)
  /\ (forall callee this args entry,
        Call callee this args entry ∈ trace (run host w) ->
        globals entry = globals w
        /\ exists l,
             callee = VObject (Loc l)
             /\ final (run host w) =
                  match host l this args entry with
                  | Returns _ w' | Throws _ w' => Some w'
                  | Diverges => None
                  end).
Proof.
  split_and!.
  - intros name v [[E _]|[E _]]%event_cases.
    + discriminate E.
    + by injection E as -> _.
  - intros F. exists (stashed w). split.
    + rewrite final_cases. by rewrite F.
    + intros name Hn. unfold stashed. simpl globals.
      by rewrite lookup_insert_ne.
  - intros callee this args entry [[E C]|[E _]]%event_cases; [|discriminate E].
    injection E as -> -> -> ->. split; [reflexivity|].
    destruct (callable_is_loc _ _ C) as [l El]. exists l. split; [exact El|].
    rewrite final_cases, (callable_is_truthy _ _ C), C, El. reflexivity.
Qed.

(** C6 (amended): the script has no loop, recursion or suspension of its
    own, and its run ends for every initial environment except when the
    callback it invokes never returns: a run fails to end exactly when
    [window.register_implementors] is a callable function whose invocation
    diverges. *)
Theorem hangs_only_in_callback w :
  final (run host w) = None <->
  exists l,
    callback w = VObject (Loc l)
    /\ is_callable w (callback w) = true
    /\ host l (VObject Window) [table_ref w] (after_build w) = Diverges.
Proof.
  rewrite final_cases. split.
  - destruct (to_boolean (callback w)); [|intros H; discriminate H].
    destruct (callback w) as [| | | | | | |[|l]] eqn:E;
      try (intros H; discriminate H).
    destruct (is_callable w (VObject (Loc l))); [|intros H; discriminate H].
    destruct (host l _ _ _) eqn:Hh; try (intros H; discriminate H).
    intros _. by exists l.
  - intros (l & E & C & D).
    rewrite (callable_is_truthy _ _ C), C, E, D. reflexivity.
Qed.

End Frame.

(** C4 fails as stated: a callback that sets [window.registered] leaves a
    global other than [pending_implementors] changed. *)
Lemma marking_callback_changes_a_global : ~ only_pending_changes host_marking w_page.
Proof.
  intros H.
  specialize (H (World (<["registered" := VBool true]> (globals (after_build w_page)))
                       (heap (after_build w_page)) tt) "registered").
  assert (Some (VBool true) = None) as E; [|discriminate E].
  apply H; [vm_compute; reflexivity | intros E; discriminate E].
Qed.

(** C6 fails as stated: with a callback that loops forever the script does
    not end. *)
Lemma looping_callback_never_ends : ~ terminates host_looping w_page.
Proof. intros [w' H]. vm_compute in H. discriminate H. Qed.

(** ** Where the table can be reached from *)

Section Locality.

Context {page : Type}.
Variable host : nat -> value -> list value -> world page -> reply page.
Implicit Types w : world page.

(** The new cells hold strings and references to cells after the first new
    one: none of them holds a reference to the table itself. *)
Lemma built_holds_later n o v :
  o ∈ built n -> v ∈ held_by o ->
  (exists s, v = VString s) \/ (exists m, v = VObject (Loc m) /\ n < m).
Proof.
  intros Ho Hv.
  assert (Forall (fun o => Forall (fun v =>
            (exists s, v = VString s) \/ (exists m, v = VObject (Loc m) /\ n < m))
            (held_by o)) (built n)) as H.
  { unfold built, held_by. simpl.
    repeat match goal with
           | |- Forall _ [] => apply Forall_nil_2
           | |- Forall _ (_ :: _) => apply Forall_cons_2
           | |- _ \/ _ => (left; eexists; reflexivity)
                          || (right; eexists; split; [reflexivity|lia])
           | |- _ => progress simpl
           end. }
  rewrite Forall_forall in H. specialize (H o Ho).
  rewrite Forall_forall in H. exact (H v Hv).
Qed.

Lemma table_not_held_after_build w o :
  closed w -> o ∈ heap (after_build w) -> table_ref w ∉ held_by o.
Proof.
  intros Hc Ho Hv. unfold after_build in Ho. simpl heap in Ho.
  apply elem_of_app in Ho as [Ho|Ho].
  - assert (length (heap w) < length (heap w)); [|lia].
    apply Hc. right. by exists o.
  - destruct (built_holds_later _ _ _ Ho Hv) as [[s E]|(m & E & Hm)].
    + discriminate E.
    + injection E as E. lia.
Qed.

Lemma table_not_global w name :
  closed w -> globals w !! name <> Some (table_ref w).
Proof.
  intros Hc E.
  assert (length (heap w) < length (heap w)); [|lia].
  apply Hc. left. by exists name.
Qed.

(** C10 (amended): the binding [implementors] is local to the function: the
    script itself never writes a global named [implementors].  In an
    environment without dangling references, the callback is entered with
    the initial global bindings and the table is then reachable from no
    global and from no heap object, only from the argument; when
    [window.register_implementors] is falsy, the global [implementors] is
    after execution as it was before, and the table is reachable from the
    global [pending_implementors] alone.  What the callback does with its
    argument afterwards is the callback's business. *)
Theorem table_stays_local w :
  closed w ->
  (forall name v, SetGlobal name v ∈ trace (run host w) -> name <> "implementors")
  /\ (forall callee this args entry,
        Call callee this args entry ∈ trace (run host w) ->
        args = [table_ref w]
        /\ globals entry = globals w
        /\ (forall name, globals entry !! name <> Some (table_ref w))
        /\ (forall o, o ∈ heap entry -> table_ref w ∉ held_by o))
  /\ (to_boolean (callback w) = false ->
      exists w',
        final (run host w) = Some w'
        /\ globals w' !! "implementors" = globals w !! "implementors"
        /\ (forall name, globals w' !! name = Some (table_ref w) ->
                         name = "pending_implementors")
        /\ (forall o, o ∈ heap w' -> table_ref w ∉ held_by o)).
Proof.
  intros Hc. split_and!.
  - intros name v [[E _]|[E _]]%event_cases.
    + discriminate E.
    + injection E as -> _. intros E. discriminate E.
  - intros callee this args entry [[E C]|[E _]]%event_cases; [|discriminate E].
    injection E as -> -> -> ->. split_and!.
    + reflexivity.
    + reflexivity.
    + intros name. exact (table_not_global w name Hc).
    + intros o. by apply table_not_held_after_build.
  - intros F. exists (stashed w). split_and!.
    + rewrite final_cases. by rewrite F.
    + unfold stashed. simpl globals. by rewrite lookup_insert_ne.
    + intros name. unfold stashed. simpl globals.
      destruct (decide (name = "pending_implementors")) as [->|Hn]; [reflexivity|].
      rewrite lookup_insert_ne by (intros E; by apply Hn).
      intros E. by apply table_not_global in E.
    + intros o. by apply table_not_held_after_build.
Qed.

End Locality.

(** C10 fails as stated: a callback that keeps its argument in
    [window.implementors] leaves a global of that name behind. *)
Lemma keeping_callback_leaves_a_global :
  ~ implementors_stays_local host_keeping w_page.
Proof.
  intros H.
  specialize (H (World (<["implementors" := table_ref w_page]>
                          (globals (after_build w_page)))
                       (heap (after_build w_page)) tt)).
  assert (Some (table_ref w_page) = None) as E; [|discriminate E].
  apply H. vm_compute. reflexivity.
Qed.

Lemma w_page_closed : closed w_page.
Proof.
  intros l [[name E]|(o & Ho & Hv)].
  - unfold w_page in E. simpl globals in E.
    apply lookup_singleton_Some in E as [_ E]. injection E as <-. simpl. lia.
  - apply list_elem_of_singleton in Ho as ->.
    apply elem_of_nil in Hv as [].
Qed.

Lemma table_stays_local_holds :
  closed w_page
  /\ forall name, globals (after_build w_page) !! name <> Some (table_ref w_page).
Proof.
  split; [exact w_page_closed|].
  destruct (table_stays_local host_idle w_page w_page_closed) as (_ & H & _).
  destruct (H (callback w_page) (VObject Window) [table_ref w_page]
              (after_build w_page)) as (_ & _ & Hg & _).
  - vm_compute. apply list_elem_of_singleton. reflexivity.
  - exact Hg.
Defined.

(** ** The table that is handed over *)

Section Table.

Context {page : Type}.
Variable host : nat -> value -> list value -> world page -> reply page.
Implicit Types w : world page.

(** What a run hands over, and in which world. *)
Lemma delivered_cases w :
  delivered (run host w) =
    if to_boolean (callback w) then
      if is_callable w (callback w) then Some (table_ref w, after_build w)
      else None
    else Some (table_ref w, stashed w).
Proof.
  destruct (run_cases host w) as [(F & R)|[(T & N & R)|(l & E & T & C & R)]];
    rewrite R.
  - by rewrite F.
  - by rewrite T, N.
  - rewrite T, C. unfold delivered. rewrite trace_of_call. reflexivity.
Qed.

(** Whatever is handed over reads back as the literal table. *)
Lemma delivered_table w v w' :
  delivered (run host w) = Some (v, w') ->
  table_at w' v = Some implementors_table.
Proof.
  rewrite delivered_cases.
  destruct (to_boolean (callback w)).
  - destruct (is_callable w (callback w)); intros E; [|discriminate E].
    injection E as <- <-. apply table_at_after_build.
  - intros E. injection E as <- <-. apply table_at_stashed.
Qed.

(** Under the contract something is handed over. *)
Lemma delivered_under_contract w :
  contract w = true -> is_Some (delivered (run host w)).
Proof.
  unfold contract. rewrite delivered_cases.
  destruct (to_boolean (callback w)); simpl.
  - intros ->. eauto.
  - eauto.
Qed.

End Table.

(** An array that reads back as a list of strings holds strings only. *)
Lemma strings_at_shape (h : list object) v ss :
  strings_at h v = Some ss ->
  exists a elems named,
    v = VObject (Loc a)
    /\ h !! a = Some (Object (KArray elems) named)
    /\ Forall (fun e => exists s, e = VString s) elems
    /\ length elems = length ss.
Proof.
  unfold strings_at.
  destruct v as [| | | | | | |[|a]]; try (intros H; discriminate H).
  destruct (h !! a) as [[[|elems|] named]|] eqn:E; try (intros H; discriminate H).
  intros H. exists a, elems, named.
  split_and!; [reflexivity | first [exact E | reflexivity] | |].
  - clear E. apply mapM_Some in H. induction H as [|e s es ss' He _ IH].
    + constructor.
    + constructor; [|exact IH]. destruct e; try discriminate He. eauto.
  - by apply length_mapM in H.
Qed.

(** A structure that reads back as a table is an ordinary object each of
    whose values is an array of strings. *)
Lemma table_at_shape {page} (w : world page) v t :
  table_at w v = Some t ->
  exists l ps,
    v = VObject (Loc l)
    /\ heap w !! l = Some (Object KOrdinary ps)
    /\ ps.*1 = t.*1
    /\ Forall (fun kv =>
         exists a elems named,
           kv.2 = VObject (Loc a)
           /\ heap w !! a = Some (Object (KArray elems) named)
           /\ Forall (fun e => exists s, e = VString s) elems) ps.
Proof.
  unfold table_at.
  destruct v as [| | | | | | |[|l]]; try (intros H; discriminate H).
  destruct (heap w !! l) as [[[] ps]|] eqn:E; try (intros H; discriminate H).
  intros H. exists l, ps. apply mapM_Some in H.
  split_and!; [reflexivity | first [exact E | reflexivity] | |].
  - clear E. induction H as [|[k x] [k' y] ps' t' Hxy _ IH].
    + reflexivity.
    + simpl in *. destruct (strings_at (heap w) x); [|discriminate Hxy].
      injection Hxy as -> _. by f_equal.
  - clear E. induction H as [|[k x] [k' y] ps' t' Hxy _ IH].
    + constructor.
    + constructor; [|exact IH]. simpl in *.
      destruct (strings_at (heap w) x) as [ss|] eqn:Hs; [|discriminate Hxy].
      destruct (strings_at_shape _ _ _ Hs) as (a & elems & named & ? & ? & ? & _).
      by exists a, elems, named.
Qed.

(** C5: the mapping the script delivers is a fixed literal: whatever the
    page's code and state, the value passed to the callback in the one
    branch and the value stored in [window.pending_implementors] in the
    other both read back as the literal table of the source, hence as the
    same data. *)
Theorem same_literal_table_in_both_branches {page1 page2}
    (host1 : nat -> value -> list value -> world page1 -> reply page1)
    (host2 : nat -> value -> list value -> world page2 -> reply page2)
    (w1 : world page1) (w2 w2' : world page2) callee this args entry name v :
  Call callee this args entry ∈ trace (run host1 w1) ->
  SetGlobal name v ∈ trace (run host2 w2) ->
  final (run host2 w2) = Some w2' ->
  exists arg,
    args = [arg]
    /\ table_at entry arg = Some implementors_table
    /\ table_at w2' v = Some implementors_table
    /\ table_at entry arg = table_at w2' v.
Proof.
  intros [[E1 _]|[E1 _]]%event_cases; [|discriminate E1].
  intros [[E2 _]|[E2 F]]%event_cases; [discriminate E2|].
  rewrite final_cases, F. intros Hw. injection Hw as <-.
  injection E1 as -> -> -> ->. injection E2 as -> ->.
  exists (table_ref w1).
  rewrite table_at_after_build, table_at_stashed. by split_and!.
Qed.

Lemma same_literal_table_in_both_branches_holds :
  exists arg,
    [table_ref w_page] = [arg]
    /\ table_at (after_build w_page) arg = Some implementors_table
    /\ table_at (stashed w_bare) (table_ref w_bare) = Some implementors_table
    /\ table_at (after_build w_page) arg
       = table_at (stashed w_bare) (table_ref w_bare).
Proof.
  apply (same_literal_table_in_both_branches host_idle host_looping
           w_page w_bare (stashed w_bare)
           (callback w_page) (VObject Window) [table_ref w_page]
           (after_build w_page) "pending_implementors" (table_ref w_bare)).
  - vm_compute. apply list_elem_of_singleton. reflexivity.
  - vm_compute. apply list_elem_of_singleton. reflexivity.
  - vm_compute. reflexivity.
Defined.

(** C7: the delivered structure is a mapping from library-name strings to
    sequences of strings: it is an ordinary object whose keys are strings
    and each of whose values is an array all of whose elements are
    strings. *)
Theorem delivered_is_map_of_string_lists {page}
    (host : nat -> value -> list value -> world page -> reply page)
    (w w' : world page) v :
  delivered (run host w) = Some (v, w') ->
  exists l (ps : list (string * value)),
    v = VObject (Loc l)
    /\ heap w' !! l = Some (Object KOrdinary ps)
    /\ Forall (fun kv =>
         exists a elems named,
           kv.2 = VObject (Loc a)
           /\ heap w' !! a = Some (Object (KArray elems) named)
           /\ Forall (fun e => exists s, e = VString s) elems) ps.
Proof.
  intros H%delivered_table.
  destruct (table_at_shape _ _ _ H) as (l & ps & ? & ? & _ & ?).
  by exists l, ps.
Qed.

Lemma delivered_is_map_of_string_lists_holds :
  exists l (ps : list (string * value)),
    table_ref w_bare = VObject (Loc l)
    /\ heap (stashed w_bare) !! l = Some (Object KOrdinary ps)
    /\ Forall (fun kv =>
         exists a elems named,
           kv.2 = VObject (Loc a)
           /\ heap (stashed w_bare) !! a = Some (Object (KArray elems) named)
           /\ Forall (fun e => exists s, e = VString s) elems) ps.
Proof.
  apply (delivered_is_map_of_string_lists host_idle w_bare).
  vm_compute. reflexivity.
Defined.

(** C9: the delivered mapping has exactly the ten keys "lazy_static",
    "regex_syntax", "libc", "serde", "nix", "mio", "ws", "hyper",
    "handlebars", "iron", and each key maps to a list of exactly three
    fragments: the InPlace implementations for IntermediateBox, FrontPlace
    and BackPlace, in some order. *)
Theorem ten_libraries_three_impls {page}
    (host : nat -> value -> list value -> world page -> reply page)
    (w w' : world page) v :
  delivered (run host w) = Some (v, w') ->
  exists t ps,
    v = VObject (Loc (length (heap w)))
    /\ heap w' !! length (heap w) = Some (Object KOrdinary ps)
    /\ table_at w' v = Some t
    /\ ps.*1 = t.*1
    /\ t.*1 = ["lazy_static"; "regex_syntax"; "libc"; "serde"; "nix"; "mio";
               "ws"; "hyper"; "handlebars"; "iron"]
    /\ length t = 10
    /\ NoDup t.*1
    /\ Forall (fun kv =>
         length kv.2 = 3
         /\ kv.2 ≡ₚ [html_IntermediateBox; html_FrontPlace; html_BackPlace]) t
    /\ Forall (fun sf =>
         mentions "'core::ops::InPlace'>InPlace</a>" sf.2 = true
         /\ mentions (">" +:+ sf.1 +:+ "</a>") sf.2 = true)
         [("IntermediateBox", html_IntermediateBox);
          ("FrontPlace", html_FrontPlace);
          ("BackPlace", html_BackPlace)].
Proof.
  intros H. pose proof (delivered_table _ _ _ _ H) as Ht.
  destruct (table_at_shape _ _ _ Ht) as (l & ps & Ev & Hl & Hk & _).
  assert (v = table_ref w) as Ev'.
  { rewrite delivered_cases in H.
    destruct (to_boolean (callback w));
      [destruct (is_callable w (callback w)); [|discriminate H]|];
      by injection H as <- _. }
  rewrite Ev' in Ev. injection Ev as <-.
  exists implementors_table, ps. split_and!; try assumption.
  - reflexivity.
  - reflexivity.
  - apply (bool_decide_unpack _). vm_compute. exact I.
  - unfold implementors_table.
    repeat (apply Forall_cons_2; [split; [reflexivity|]|]);
      try apply Forall_nil_2; simpl;
      first [reflexivity
            | apply (Permutation_app_comm
                       [html_FrontPlace; html_BackPlace] [html_IntermediateBox])].
  - repeat (apply Forall_cons_2; [split; vm_compute; reflexivity|]).
    apply Forall_nil_2.
Qed.

Lemma ten_libraries_three_impls_holds :
  exists t ps,
    table_ref w_page = VObject (Loc (length (heap w_page)))
    /\ heap (after_build w_page) !! length (heap w_page)
       = Some (Object KOrdinary ps)
    /\ table_at (after_build w_page) (table_ref w_page) = Some t
    /\ ps.*1 = t.*1
    /\ t.*1 = ["lazy_static"; "regex_syntax"; "libc"; "serde"; "nix"; "mio";
               "ws"; "hyper"; "handlebars"; "iron"]
    /\ length t = 10
    /\ NoDup t.*1
    /\ Forall (fun kv =>
         length kv.2 = 3
         /\ kv.2 ≡ₚ [html_IntermediateBox; html_FrontPlace; html_BackPlace]) t
    /\ Forall (fun sf =>
         mentions "'core::ops::InPlace'>InPlace</a>" sf.2 = true
         /\ mentions (">" +:+ sf.1 +:+ "</a>") sf.2 = true)
         [("IntermediateBox", html_IntermediateBox);
          ("FrontPlace", html_FrontPlace);
          ("BackPlace", html_BackPlace)].
Proof.
  apply (ten_libraries_three_impls host_marking w_page).
  vm_compute. reflexivity.
Defined.

(** ** Determinism *)



(** ** Further properties of the script *)

Section Heap.

Context {page : Type}.
Variable host : nat -> value -> list value -> world page -> reply page.
Implicit Types w : world page.

Lemma length_built n : length (built n) = 11.
Proof. reflexivity. Qed.

Lemma after_build_grows w : grows_by 11 w (after_build w).
Proof.
  unfold grows_by, after_build. simpl heap. simpl rest. split_and!.
  - intros l o H. by apply lookup_app_l_Some.
  - by rewrite length_app, length_built.
  - reflexivity.
Qed.

(** X1: the script changes no object that was in the heap: when the callback is
    entered, and at the end of a run that makes no call, every object of the
    initial heap is where and what it was, exactly eleven objects (the table
    and its ten arrays) have been added after them, and the page state
    outside globals and heap is untouched. *)
Theorem existing_heap_untouched w :
  (forall callee this args entry,
      Call callee this args entry ∈ trace (run host w) -> grows_by 11 w entry)
  /\ (is_callable w (callback w) = false ->
      exists w', final (run host w) = Some w' /\ grows_by 11 w w').
Proof.
  split.
  - intros callee this args entry [[E C]|[E _]]%event_cases; [|discriminate E].
    injection E as -> -> -> ->. apply after_build_grows.
  - intros N. rewrite final_cases, N.
    destruct (to_boolean (callback w)).
    + exists (after_build w). split; [|apply after_build_grows].
      by destruct (callback w) as [| | | | | | |[|l]].
    + exists (stashed w). split; [reflexivity|]. apply (after_build_grows w).
Qed.

End Heap.

Section Arrays.

Context {page : Type}.
Variable host : nat -> value -> list value -> world page -> reply page.
Implicit Types w : world page.

Lemma lookup_first_new (h l : list object) : (h ++ l) !! length h = l !! 0.
Proof. rewrite <- (lookup_past h l 0). f_equal. lia. Qed.

Lemma built_arrays (h : list object) :
  exists ps,
    (h ++ built (length h)) !! length h = Some (Object KOrdinary ps)
    /\ NoDup ps.*2
    /\ Forall (fun x =>
         exists a elems,
           x = VObject (Loc a)
           /\ length h < a
           /\ (h ++ built (length h)) !! a = Some (Object (KArray elems) [])) ps.*2.
Proof.
  eexists. split_and!.
  - rewrite lookup_first_new. reflexivity.
  - change (NoDup ((fun i => VObject (Loc (length h + i))) <$> seq 1 10)).
    apply NoDup_fmap_2_strong; [|apply NoDup_seq].
    intros i j _ _ E. injection E as E. lia.
  - simpl.
    repeat (apply Forall_cons_2;
            [eexists; eexists; split_and!;
             [reflexivity | lia | rewrite lookup_past; reflexivity]|]).
    apply Forall_nil_2.
Qed.

(** X2: the ten lists are ten separate arrays, all new: the values of the
    delivered object are pairwise distinct references to arrays that were
    not in the initial heap (and are not the table itself), although their
    contents repeat.  Changing the list of one library later does not
    change the list of another. *)
Theorem lists_are_separate_new_arrays w w' v :
  delivered (run host w) = Some (v, w') ->
  exists ps,
    heap w' !! length (heap w) = Some (Object KOrdinary ps)
    /\ NoDup ps.*2
    /\ Forall (fun x =>
         exists a elems,
           x = VObject (Loc a)
           /\ length (heap w) < a
           /\ heap w' !! a = Some (Object (KArray elems) [])) ps.*2.
Proof.
  rewrite delivered_cases. intros H.
  assert (heap w' = heap w ++ built (length (heap w))) as ->.
  { destruct (to_boolean (callback w));
      [destruct (is_callable w (callback w)); [|discriminate H]|];
      by injection H as _ <-. }
  apply built_arrays.
Qed.

Lemma built_holds_within n o v l :
  o ∈ built n -> v ∈ held_by o -> v = VObject (Loc l) -> l < n + 11.
Proof.
  intros Ho Hv.
  assert (Forall (fun o => Forall (fun v =>
            forall l, v = VObject (Loc l) -> l < n + 11)
            (held_by o)) (built n)) as H.
  { unfold built, held_by. simpl.
    repeat match goal with
           | |- Forall _ [] => apply Forall_nil_2
           | |- Forall _ (_ :: _) => apply Forall_cons_2
           | |- forall l, _ -> _ =>
               let E := fresh in intros ? E;
               first [discriminate E | injection E as <-; lia]
           | |- _ => progress simpl
           end. }
  rewrite Forall_forall in H. specialize (H o Ho).
  rewrite Forall_forall in H. exact (H v Hv l).
Qed.

Lemma after_build_closed w : closed w -> closed (after_build w).
Proof.
  intros Hc l [[name E]|(o & Ho & Hv)];
    unfold after_build; simpl heap; rewrite length_app, length_built.
  - assert (l < length (heap w)); [|lia]. apply Hc. left. by exists name.
  - unfold after_build in Ho. simpl heap in Ho.
    apply elem_of_app in Ho as [Ho|Ho].
    + assert (l < length (heap w)); [|lia]. apply Hc. right. by exists o.
    + by apply (built_holds_within _ o (VObject (Loc l)) l).
Qed.

Lemma stashed_closed w : closed w -> closed (stashed w).
Proof.
  intros Hc l [[name E]|H].
  - unfold stashed in *. simpl globals in E. simpl heap.
    rewrite length_app, length_built.
    apply lookup_insert_Some in E as [[_ E]|[_ E]].
    + injection E as <-. lia.
    + assert (l < length (heap w)); [|lia]. apply Hc. left. by exists name.
  - apply (after_build_closed w Hc l). by right.
Qed.

(** X3: the script keeps the world free of dangling references: if every
    reference held by a global or a heap object of the initial world points
    into the heap, the same holds of the world the callback is entered with
    and of the final world of a run that makes no call. *)
Theorem no_dangling_reference_is_made w :
  closed w ->
  (forall callee this args entry,
      Call callee this args entry ∈ trace (run host w) -> closed entry)
  /\ (is_callable w (callback w) = false ->
      exists w', final (run host w) = Some w' /\ closed w').
Proof.
  intros Hc. split.
  - intros callee this args entry [[E C]|[E _]]%event_cases; [|discriminate E].
    injection E as -> -> -> ->. by apply after_build_closed.
  - intros N. rewrite final_cases, N.
    destruct (to_boolean (callback w)).
    + exists (after_build w). split; [|by apply after_build_closed].
      by destruct (callback w) as [| | | | | | |[|l]].
    + exists (stashed w). split; [reflexivity|]. by apply stashed_closed.
Qed.

End Arrays.

Lemma lists_are_separate_new_arrays_holds :
  exists ps,
    heap (stashed w_bare) !! length (heap w_bare) = Some (Object KOrdinary ps)
    /\ NoDup ps.*2
    /\ Forall (fun x =>
         exists a elems,
           x = VObject (Loc a)
           /\ length (heap w_bare) < a
           /\ heap (stashed w_bare) !! a = Some (Object (KArray elems) [])) ps.*2.
Proof.
  apply (lists_are_separate_new_arrays host_idle w_bare (stashed w_bare)
           (table_ref w_bare)).
  vm_compute. reflexivity.
Defined.

Lemma no_dangling_reference_is_made_holds :
  closed w_page /\ closed (after_build w_page).
Proof.
  split; [exact w_page_closed|].
  destruct (no_dangling_reference_is_made host_idle w_page w_page_closed)
    as [H _].
  apply (H (callback w_page) (VObject Window) [table_ref w_page]).
  vm_compute. apply list_elem_of_singleton. reflexivity.
Defined.

Section Globals.

Context {page : Type}.
Variable host : nat -> value -> list value -> world page -> reply page.
Implicit Types w : world page.

Lemma callback_set_var w name v :
  name <> "register_implementors" -> callback (set_var name v w) = callback w.
Proof.
  intros Hn. unfold callback, window_get, set_var. simpl globals.
  by rewrite lookup_insert_ne.
Qed.

Lemma is_callable_set_var w name v x :
  is_callable (set_var name v w) x = is_callable w x.
Proof. reflexivity. Qed.

Lemma after_build_set_var w name v :
  after_build (set_var name v w) = set_var name v (after_build w).
Proof. reflexivity. Qed.

(** X4: an old value of [window.pending_implementors] plays no part: when
    [window.register_implementors] is falsy, a run that starts with any
    value in [window.pending_implementors] is the same run, with the same
    final world, as one that starts without it.  The store replaces; it
    does not merge or append. *)
Theorem stale_pending_is_replaced w v :
  to_boolean (callback w) = false ->
  run host (set_var "pending_implementors" v w) = run host w.
Proof.
  intros F.
  assert (callback (set_var "pending_implementors" v w) = callback w) as E.
  { apply callback_set_var. intros H. discriminate H. }
  rewrite (run_absent host w F).
  rewrite (run_absent host (set_var "pending_implementors" v w))
    by (rewrite E; exact F).
  unfold stashed, the_write, table_ref, set_var. simpl globals. simpl heap.
  simpl rest. by rewrite insert_insert_eq.
Qed.

(** X5: the script reads no global but [window.register_implementors]: giving
    any other global (other than the one it writes) another value before
    the script loads changes neither the branch taken nor what the script
    does.  The callback is entered with the same call in the same world but
    for that global, and a run that stores or fails ends in the same world
    but for that global, with the same trace. *)
Theorem other_globals_are_not_read w name v :
  name <> "register_implementors" ->
  name <> "pending_implementors" ->
  (forall callee this args entry,
      Call callee this args entry ∈ trace (run host w) ->
      trace (run host (set_var name v w))
      = [Call callee this args (set_var name v entry)])
  /\ (to_boolean (callback w) = false ->
      run host w = Done tt (Config (stashed w) [the_write w])
      /\ run host (set_var name v w)
         = Done tt (Config (set_var name v (stashed w)) [the_write w]))
  /\ (to_boolean (callback w) = true ->
      is_callable w (callback w) = false ->
      run host w = Thrown TypeError (Config (after_build w) [])
      /\ run host (set_var name v w)
         = Thrown TypeError (Config (set_var name v (after_build w)) [])).
Proof.
  intros Hr Hp.
  pose proof (callback_set_var w name v Hr) as E.
  split_and!.
  - intros callee this args entry [[Ec C]|[Ec _]]%event_cases; [|discriminate Ec].
    injection Ec as -> -> -> ->.
    rewrite trace_cases, E, is_callable_set_var, (callable_is_truthy _ _ C), C.
    unfold the_call. by rewrite E.
  - intros F. split; [by apply run_absent|].
    rewrite (run_absent host (set_var name v w)) by (rewrite E; exact F).
    unfold stashed, the_write, table_ref, set_var. simpl globals. simpl heap.
    simpl rest. by rewrite insert_insert_ne.
  - intros T N. split; [by apply run_not_callable|].
    rewrite (run_not_callable host (set_var name v w));
      [reflexivity | by rewrite E | by rewrite E, is_callable_set_var].
Qed.

(** X6: the value the callback returns is dropped: a page whose callback
    returns [undefined] instead of whatever it returns, and otherwise acts
    alike, gives the very same run. *)
Theorem callback_result_is_dropped w :
  run (fun l this args e => forget_value (host l this args e)) w = run host w.
Proof.
  destruct (run_cases host w) as [(F & R)|[(T & N & R)|(l & E & T & C & R)]];
    rewrite R.
  - by apply run_absent.
  - by apply run_not_callable.
  - rewrite (run_callable _ w l E C). by destruct (host l _ _ _).
Qed.

Lemma table_at_built_more g (h more : list object) (r : page) :
  table_at (World g (h ++ built (length h) ++ more) r) (VObject (Loc (length h)))
  = Some implementors_table.
Proof.
  unfold table_at. simpl heap.
  rewrite lookup_first_new. simpl.
  unfold strings_at. rewrite !lookup_past. reflexivity.
Qed.

(** X7: loading the script twice on a page without [register_implementors]:
    the second load builds a second table in eleven further heap objects
    and stores it over the first.  [window.pending_implementors] then
    refers to the second table, which is another object than the first;
    both read back as the literal table, and no object of the initial heap
    has changed. *)
Theorem second_load_replaces_first w :
  to_boolean (callback w) = false ->
  exists w1 w2,
    run host w = Done tt (Config w1 [the_write w])
    /\ run host w1 = Done tt (Config w2 [the_write w1])
    /\ globals w2 !! "pending_implementors" = Some (table_ref w1)
    /\ table_ref w1 <> table_ref w
    /\ table_at w2 (table_ref w1) = Some implementors_table
    /\ table_at w2 (table_ref w) = Some implementors_table
    /\ grows_by 22 w w2.
Proof.
  intros F. exists (stashed w), (stashed (stashed w)).
  assert (to_boolean (callback (stashed w)) = false) as F1.
  { change (stashed w) with (set_var "pending_implementors" (table_ref w)
                              (after_build w)).
    rewrite callback_set_var by (intros H; discriminate H). exact F. }
  split_and!.
  - by apply run_absent.
  - by apply run_absent.
  - apply lookup_insert_eq.
  - unfold table_ref, stashed, after_build. simpl heap.
    rewrite length_app, length_built. intros E. injection E as E. lia.
  - apply table_at_stashed.
  - unfold stashed, after_build. simpl heap. rewrite <- app_assoc.
    apply table_at_built_more.
  - destruct (after_build_grows w) as (H1 & L1 & R1).
    destruct (after_build_grows (stashed w)) as (H2 & L2 & R2).
    split_and!.
    + intros l o H. apply H2, (H1 l o H).
    + change (heap (stashed (stashed w))) with (heap (after_build (stashed w))).
      rewrite L2. change (heap (stashed w)) with (heap (after_build w)).
      rewrite L1. lia.
    + reflexivity.
Qed.

End Globals.

Lemma stale_pending_is_replaced_holds :
  to_boolean (callback w_bare) = false
  /\ run host_idle (set_var "pending_implementors" (VString "old") w_bare)
     = run host_idle w_bare.
Proof.
  split; [reflexivity|].
  apply (stale_pending_is_replaced host_idle w_bare (VString "old")).
  reflexivity.
Defined.

Lemma other_globals_are_not_read_holds :
  "rootPath" <> "register_implementors"
  /\ "rootPath" <> "pending_implementors"
  /\ trace (run host_marking (set_var "rootPath" (VString "../") w_page))
     = [Call (callback w_page) (VObject Window) [table_ref w_page]
             (set_var "rootPath" (VString "../") (after_build w_page))].
Proof.
  assert ("rootPath" <> "register_implementors") as H1
    by (intros E; discriminate E).
  assert ("rootPath" <> "pending_implementors") as H2
    by (intros E; discriminate E).
  split_and!; [exact H1 | exact H2 |].
  destruct (other_globals_are_not_read host_marking w_page "rootPath"
              (VString "../") H1 H2) as [H _].
  apply H. vm_compute. apply list_elem_of_singleton. reflexivity.
Defined.

Lemma second_load_replaces_first_holds :
  to_boolean (callback w_bare) = false
  /\ exists w1 w2,
       run host_looping w_bare = Done tt (Config w1 [the_write w_bare])
       /\ run host_looping w1 = Done tt (Config w2 [the_write w1])
       /\ globals w2 !! "pending_implementors" = Some (table_ref w1)
       /\ table_ref w1 <> table_ref w_bare
       /\ table_at w2 (table_ref w1) = Some implementors_table
       /\ table_at w2 (table_ref w_bare) = Some implementors_table
       /\ grows_by 22 w_bare w2.
Proof.
  split; [reflexivity|].
  apply (second_load_replaces_first host_looping w_bare). reflexivity.
Defined.
